(** * GATT-server conversion layer of pc-ble-driver-js ([src/driver_gatts.h])

    The header declares, for every native GATT-server structure, a converter
    class over [BleToJs<T>], the event wrappers over [BleDriverGattsEvent<T>],
    the process-wide table [gatts_event_name_map], and the batons of the
    asynchronous calls.  This development embeds those declarations and the
    inline bodies of the header, and states the properties of the
    specification about them. *)

From stdpp Require Import gmap strings list fin_maps.
From Stdlib Require Import ZArith.
From Stdlib.Strings Require Import Byte.

Local Open Scope Z_scope.

(** ** Machine integers *)

(** [uint16_t]: a 16-bit unsigned integer, as a [Z] reduced modulo 2^16. *)
Definition to_uint16 (z : Z) : Z := z mod 65536.

(** ** The event discriminants named in the header *)

(** The enumerators of [BLE_GATTS_EVTS] the header refers to.  Their numeric
    values live in [ble_gatts.h], which the header only includes. *)
Inductive BLE_GATTS_EVTS : Set :=
| BLE_GATTS_EVT_WRITE
| BLE_GATTS_EVT_RW_AUTHORIZE_REQUEST
| BLE_GATTS_EVT_SYS_ATTR_MISSING
| BLE_GATTS_EVT_HVC
| BLE_GATTS_EVT_SC_CONFIRM
| BLE_GATTS_EVT_TIMEOUT.

#[global] Instance BLE_GATTS_EVTS_eq_dec : EqDecision BLE_GATTS_EVTS.
Proof. solve_decision. Defined.

(** Every enumerator, in the order of the initializer of
    [gatts_event_name_map]. *)
Definition all_gatts_evts : list BLE_GATTS_EVTS :=
  [ BLE_GATTS_EVT_WRITE; BLE_GATTS_EVT_RW_AUTHORIZE_REQUEST;
    BLE_GATTS_EVT_SYS_ATTR_MISSING; BLE_GATTS_EVT_HVC;
    BLE_GATTS_EVT_SC_CONFIRM; BLE_GATTS_EVT_TIMEOUT ].

(** ** The native structure types named in the header *)

(** The template arguments of [BleToJs<...>] and [BleDriverGattsEvent<...>].
    Their layouts are declared in [ble_gatts.h]. *)
Inductive native_type : Set :=
| ble_gatts_enable_params_t
| ble_gatts_attr_md_t
| ble_gatts_char_pf_t
| ble_gatts_char_md_t
| ble_gatts_attr_t
| ble_gatts_char_handles_t
| ble_gatts_hvx_params_t
| ble_gatts_value_t
| ble_gatts_rw_authorize_reply_params_t
| ble_gatts_authorize_params_t
| ble_gatts_evt_write_t
| ble_gatts_evt_read_t
| ble_gatts_evt_rw_authorize_request_t
| ble_gatts_evt_sys_attr_missing_t
| ble_gatts_evt_hvc_t
| ble_gatts_evt_timeout_t.

#[global] Instance native_type_eq_dec : EqDecision native_type.
Proof. solve_decision. Defined.

(** ** Class declarations *)

(** The two conversion directions a class may override. *)
Inductive method : Set := ToJs | ToNative.

#[global] Instance method_eq_dec : EqDecision method.
Proof. solve_decision. Defined.

(** What a constructor is built from: a pointer to the native structure, a
    managed object, or the event envelope (kind fixed by the class, then
    timestamp, connection handle and payload pointer). *)
Inductive ctor_sig : Set :=
| FromNative
| FromJsObject
| FromEnvelope (evt_id : BLE_GATTS_EVTS).

#[global] Instance ctor_sig_eq_dec : EqDecision ctor_sig.
Proof. solve_decision. Defined.

Inductive base_class : Set :=
| BleToJs (T : native_type)
| BleDriverGattsEvent_of (T : native_type).

#[global] Instance base_class_eq_dec : EqDecision base_class.
Proof. solve_decision. Defined.

Record class_decl : Set := {
  base : base_class;
  ctors : list ctor_sig;
  declared : list method
}.

(** The converter classes: every class of the header that derives from
    [BleToJs<T>], in the order of the header. *)
Inductive converter_class : Set :=
| GattsEnableParameters
| GattsAttributeMetadata
| GattsCharacteristicPresentationFormat
| GattsCharacteristicMetadata
| GattsAttribute
| GattsCharacteristicDefinitionHandles
| GattsHVXParams
| GattsValue
| GattGattsReplyReadWriteAuthorizeParams
| GattsAuthorizeParameters
| GattsReadEvent.

#[global] Instance converter_class_eq_dec : EqDecision converter_class.
Proof. solve_decision. Defined.

Definition all_converter_classes : list converter_class :=
  [ GattsEnableParameters; GattsAttributeMetadata;
    GattsCharacteristicPresentationFormat; GattsCharacteristicMetadata;
    GattsAttribute; GattsCharacteristicDefinitionHandles; GattsHVXParams;
    GattsValue; GattGattsReplyReadWriteAuthorizeParams;
    GattsAuthorizeParameters; GattsReadEvent ].

(** The declaration of each converter class, read off the header. *)
Definition converter_decl (c : converter_class) : class_decl :=
  match c with
  | GattsEnableParameters =>
      {| base := BleToJs ble_gatts_enable_params_t;
         ctors := [FromNative; FromJsObject];
         declared := [ToJs; ToNative] |}
  | GattsAttributeMetadata =>
      {| base := BleToJs ble_gatts_attr_md_t;
         ctors := [FromNative; FromJsObject];
         declared := [ToNative] |}
  | GattsCharacteristicPresentationFormat =>
      {| base := BleToJs ble_gatts_char_pf_t;
         ctors := [FromNative; FromJsObject];
         declared := [ToNative] |}
  | GattsCharacteristicMetadata =>
      {| base := BleToJs ble_gatts_char_md_t;
         ctors := [FromNative; FromJsObject];
         declared := [ToNative] |}
  | GattsAttribute =>
      {| base := BleToJs ble_gatts_attr_t;
         ctors := [FromNative; FromJsObject];
         declared := [ToNative] |}
  | GattsCharacteristicDefinitionHandles =>
      {| base := BleToJs ble_gatts_char_handles_t;
         ctors := [FromNative; FromJsObject];
         declared := [ToJs] |}
  | GattsHVXParams =>
      {| base := BleToJs ble_gatts_hvx_params_t;
         ctors := [FromNative; FromJsObject];
         declared := [ToNative] |}
  | GattsValue =>
      {| base := BleToJs ble_gatts_value_t;
         ctors := [FromNative; FromJsObject];
         declared := [ToJs; ToNative] |}
  | GattGattsReplyReadWriteAuthorizeParams =>
      {| base := BleToJs ble_gatts_rw_authorize_reply_params_t;
         ctors := [FromNative; FromJsObject];
         declared := [ToNative] |}
  | GattsAuthorizeParameters =>
      {| base := BleToJs ble_gatts_authorize_params_t;
         ctors := [FromNative; FromJsObject];
         declared := [ToJs; ToNative] |}
  | GattsReadEvent =>
      {| base := BleToJs ble_gatts_evt_read_t;
         ctors := [FromNative; FromJsObject];
         declared := [ToJs] |}
  end.

(** Whether a class declares the given direction. *)
Definition declares (d : class_decl) (m : method) : bool :=
  bool_decide (m ∈ declared d).

Definition provides_ToJs (c : converter_class) : bool :=
  declares (converter_decl c) ToJs.

Definition provides_ToNative (c : converter_class) : bool :=
  declares (converter_decl c) ToNative.

Definition provides_both (c : converter_class) : bool :=
  provides_ToJs c && provides_ToNative c.

(** The event wrapper classes: every class of the header that derives from
    [BleDriverGattsEvent<T>]. *)
Inductive gatts_event_class : Set :=
| GattsWriteEvent
| GattsRWAuthorizeRequestEvent
| GattsSystemAttributeMissingEvent
| GattsHVCEvent
| GattsSCConfirmEvent
| GattsTimeoutEvent.

#[global] Instance gatts_event_class_eq_dec : EqDecision gatts_event_class.
Proof. solve_decision. Defined.

Definition all_gatts_event_classes : list gatts_event_class :=
  [ GattsWriteEvent; GattsRWAuthorizeRequestEvent;
    GattsSystemAttributeMissingEvent; GattsHVCEvent;
    GattsSCConfirmEvent; GattsTimeoutEvent ].

(** The template argument of each wrapper's base class. *)
Definition EventType (c : gatts_event_class) : native_type :=
  match c with
  | GattsWriteEvent => ble_gatts_evt_write_t
  | GattsRWAuthorizeRequestEvent => ble_gatts_evt_rw_authorize_request_t
  | GattsSystemAttributeMissingEvent => ble_gatts_evt_sys_attr_missing_t
  | GattsHVCEvent => ble_gatts_evt_hvc_t
  | GattsSCConfirmEvent => ble_gatts_evt_timeout_t
  | GattsTimeoutEvent => ble_gatts_evt_timeout_t
  end.

(** The constant each wrapper's constructor hands to its base class. *)
Definition class_evt_id (c : gatts_event_class) : BLE_GATTS_EVTS :=
  match c with
  | GattsWriteEvent => BLE_GATTS_EVT_WRITE
  | GattsRWAuthorizeRequestEvent => BLE_GATTS_EVT_RW_AUTHORIZE_REQUEST
  | GattsSystemAttributeMissingEvent => BLE_GATTS_EVT_SYS_ATTR_MISSING
  | GattsHVCEvent => BLE_GATTS_EVT_HVC
  | GattsSCConfirmEvent => BLE_GATTS_EVT_SC_CONFIRM
  | GattsTimeoutEvent => BLE_GATTS_EVT_TIMEOUT
  end.

(** The declaration of each event wrapper: one constructor, which takes the
    timestamp, the connection handle and the payload pointer, and a
    declaration of [ToJs()] only. *)
Definition event_decl (c : gatts_event_class) : class_decl :=
  {| base := BleDriverGattsEvent_of (EventType c);
     ctors := [FromEnvelope (class_evt_id c)];
     declared := [ToJs] |}.

(** ** Native memory *)

(** Addresses of native objects; a pointer is [None] when it is [NULL]. *)
Definition loc := positive.

(** [new T(v)]: allocates a cell that no live object occupies and stores [v]
    there. *)
Definition new {A : Type} (v : A) (h : gmap loc A) : loc * gmap loc A :=
  let p := fresh (dom h) in (p, <[p := v]> h).

(** ** The name table *)

(** [std::map::insert] of one entry: an entry whose key is already present is
    dropped. *)
Definition name_map_insert (m : gmap Z string) (entry : Z * string)
  : gmap Z string :=
  match m !! entry.1 with
  | Some _ => m
  | None => <[entry.1 := entry.2]> m
  end.

(** Construction of a [name_map_t] from a braced initializer list: the
    entries are inserted from left to right. *)
Definition name_map_init (entries : list (Z * string)) : gmap Z string :=
  foldl name_map_insert ∅ entries.

(** The first entry of an initializer list that carries the key [k]. *)
Fixpoint first_entry (k : Z) (entries : list (Z * string)) : option string :=
  match entries with
  | [] => None
  | entry :: rest =>
      if decide (entry.1 = k) then Some entry.2 else first_entry k rest
  end.

(** Modelled from the spec: [ConversionUtility::valueToString] is defined in
    the common conversion code, of which the header only has the call.  The
    specification describes it as the lookup of a name in a closed kind-to-name
    table, where a kind the table does not know renders as the default text
    instead of failing. *)
Definition valueToString (value : Z) (name_map : gmap Z string)
    (defaultValue : string) : string :=
  match name_map !! value with
  | Some name => name
  | None => defaultValue
  end.

(** ** Events *)

(** Modelled from the spec: [BleDriverEvent<EventType>] is declared in
    common.h, of which the header only has the constructor call.  The
    specification describes it as the envelope that wraps a native event
    payload together with the event kind, the timestamp and the connection
    handle.  [evt_id] and [conn_handle] are [uint16_t]; [evt] is the payload
    pointer. *)
Record BleDriverEvent (T : native_type) : Type := {
  evt_id : Z;
  timestamp : string;
  conn_handle : Z;
  evt : option loc
}.

Arguments evt_id {T} _.
Arguments timestamp {T} _.
Arguments conn_handle {T} _.
Arguments evt {T} _.

(** The public constructor of [BleDriverGattsEvent<EventType>]: it forwards
    its four arguments to the base class; the two [uint16_t] parameters
    convert their arguments. *)
Definition BleDriverGattsEvent (T : native_type) (evt_id : Z)
    (timestamp : string) (conn_handle : Z) (evt : option loc)
  : BleDriverEvent T :=
  {| evt_id := to_uint16 evt_id;
     timestamp := timestamp;
     conn_handle := to_uint16 conn_handle;
     evt := evt |}.

(** ** Managed objects *)

(** A value of the managed runtime: a record with named fields, a byte
    sequence, a number, a boolean, or the explicit not-present marker. *)
#[warnings="-register-all"]
Inductive managed : Type :=
| MAbsent
| MBool (b : bool)
| MNumber (n : Z)
| MBytes (bs : list byte)
| MObject (fields : gmap string managed).

(** Why a conversion failed. *)
Inductive failure : Set :=
| Missing
| WrongShape
| NullBuffer
| ExceedsMaximum
| BothBranches
| NoBranch.

(** [ConversionError]: the offending field and what is wrong with it. *)
Record ConversionError : Set := {
  field : string;
  why : failure
}.

Inductive result (A : Type) : Type :=
| Ok (a : A)
| Fail (e : ConversionError).

Arguments Ok {A} _.
Arguments Fail {A} _.

#[global] Instance result_bind : MBind result := λ A B f r,
  match r with
  | Ok a => f a
  | Fail e => Fail e
  end.

#[global] Instance result_fmap : FMap result := λ A B f r,
  match r with
  | Ok a => Ok (f a)
  | Fail e => Fail e
  end.

(** The value of a named field; a field a record does not have is not
    present. *)
Definition get (o : managed) (name : string) : managed :=
  match o with
  | MObject fields => default MAbsent (fields !! name)
  | _ => MAbsent
  end.

Definition getBool (o : managed) (name : string) : result bool :=
  match get o name with
  | MBool b => Ok b
  | MAbsent => Fail {| field := name; why := Missing |}
  | _ => Fail {| field := name; why := WrongShape |}
  end.

Definition getNumber (o : managed) (name : string) : result Z :=
  match get o name with
  | MNumber n => Ok n
  | MAbsent => Fail {| field := name; why := Missing |}
  | _ => Fail {| field := name; why := WrongShape |}
  end.

Definition getBytes (o : managed) (name : string) : result (list byte) :=
  match get o name with
  | MBytes bs => Ok bs
  | MAbsent => Fail {| field := name; why := Missing |}
  | _ => Fail {| field := name; why := WrongShape |}
  end.

Definition getObject (o : managed) (name : string) : result managed :=
  match get o name with
  | MObject fields => Ok (MObject fields)
  | MAbsent => Fail {| field := name; why := Missing |}
  | _ => Fail {| field := name; why := WrongShape |}
  end.

(** The values the enumerators have in the SoftDevice headers this driver
    is built against ([BLE_GATTS_EVT_BASE] is 0x50), and the spelling of
    each enumerator. *)
Definition softdevice_evt_value (e : BLE_GATTS_EVTS) : Z :=
  match e with
  | BLE_GATTS_EVT_WRITE => 0x50
  | BLE_GATTS_EVT_RW_AUTHORIZE_REQUEST => 0x51
  | BLE_GATTS_EVT_SYS_ATTR_MISSING => 0x52
  | BLE_GATTS_EVT_HVC => 0x53
  | BLE_GATTS_EVT_SC_CONFIRM => 0x54
  | BLE_GATTS_EVT_TIMEOUT => 0x55
  end.

Definition softdevice_evt_name (e : BLE_GATTS_EVTS) : string :=
  match e with
  | BLE_GATTS_EVT_WRITE => "BLE_GATTS_EVT_WRITE"
  | BLE_GATTS_EVT_RW_AUTHORIZE_REQUEST => "BLE_GATTS_EVT_RW_AUTHORIZE_REQUEST"
  | BLE_GATTS_EVT_SYS_ATTR_MISSING => "BLE_GATTS_EVT_SYS_ATTR_MISSING"
  | BLE_GATTS_EVT_HVC => "BLE_GATTS_EVT_HVC"
  | BLE_GATTS_EVT_SC_CONFIRM => "BLE_GATTS_EVT_SC_CONFIRM"
  | BLE_GATTS_EVT_TIMEOUT => "BLE_GATTS_EVT_TIMEOUT"
  end.

Section Gatts.

(** The numeric value of each enumerator, from [ble_gatts.h]. *)
Variable evt_value : BLE_GATTS_EVTS → Z.

(** The name text [NAME_MAP_ENTRY] attaches to each enumerator. *)
Variable evt_name : BLE_GATTS_EVTS → string.

(** The layout of each native structure, from [ble_gatts.h], and its
    value-initialisation [T()]. *)
Variable layout : native_type → Type.
Variable value_init : ∀ T : native_type, layout T.

(** The discriminant as the [uint16_t] key under which the table and the
    events hold it. *)
Definition evt_key (e : BLE_GATTS_EVTS) : Z := to_uint16 (evt_value e).

(** Modelled from the spec: the macro [NAME_MAP_ENTRY] is defined in
    common.h.  The specification describes an entry of the table as an
    event discriminant mapped to its human-readable name. *)
Definition NAME_MAP_ENTRY (e : BLE_GATTS_EVTS) : Z * string :=
  (evt_key e, evt_name e).

Definition gatts_event_name_map : gmap Z string :=
  name_map_init
    [ NAME_MAP_ENTRY BLE_GATTS_EVT_WRITE;
      NAME_MAP_ENTRY BLE_GATTS_EVT_RW_AUTHORIZE_REQUEST;
      NAME_MAP_ENTRY BLE_GATTS_EVT_SYS_ATTR_MISSING;
      NAME_MAP_ENTRY BLE_GATTS_EVT_HVC;
      NAME_MAP_ENTRY BLE_GATTS_EVT_SC_CONFIRM;
      NAME_MAP_ENTRY BLE_GATTS_EVT_TIMEOUT ].

(** [BleDriverGattsEvent::getEventName]. *)
Definition getEventName {T : native_type} (e : BleDriverEvent T) : string :=
  valueToString (evt_id e) gatts_event_name_map "Unknown Gatts Event".

(** [BleDriverGattsEvent::ToNative]: [return new EventType();].  The event
    itself is not read. *)
Definition BleDriverGattsEvent_ToNative {T : native_type}
    (e : BleDriverEvent T) (h : gmap loc (layout T))
  : loc * gmap loc (layout T) :=
  new (value_init T) h.

(** The constructors of the six wrappers. *)
Definition new_GattsWriteEvent (timestamp : string) (conn_handle : Z)
    (evt : option loc) : BleDriverEvent ble_gatts_evt_write_t :=
  BleDriverGattsEvent ble_gatts_evt_write_t
    (evt_value BLE_GATTS_EVT_WRITE) timestamp conn_handle evt.

Definition new_GattsRWAuthorizeRequestEvent (timestamp : string)
    (conn_handle : Z) (evt : option loc)
  : BleDriverEvent ble_gatts_evt_rw_authorize_request_t :=
  BleDriverGattsEvent ble_gatts_evt_rw_authorize_request_t
    (evt_value BLE_GATTS_EVT_RW_AUTHORIZE_REQUEST) timestamp conn_handle evt.

Definition new_GattsSystemAttributeMissingEvent (timestamp : string)
    (conn_handle : Z) (evt : option loc)
  : BleDriverEvent ble_gatts_evt_sys_attr_missing_t :=
  BleDriverGattsEvent ble_gatts_evt_sys_attr_missing_t
    (evt_value BLE_GATTS_EVT_SYS_ATTR_MISSING) timestamp conn_handle evt.

Definition new_GattsHVCEvent (timestamp : string) (conn_handle : Z)
    (evt : option loc) : BleDriverEvent ble_gatts_evt_hvc_t :=
  BleDriverGattsEvent ble_gatts_evt_hvc_t
    (evt_value BLE_GATTS_EVT_HVC) timestamp conn_handle evt.

Definition new_GattsSCConfirmEvent (timestamp : string) (conn_handle : Z)
    (evt : option loc) : BleDriverEvent ble_gatts_evt_timeout_t :=
  BleDriverGattsEvent ble_gatts_evt_timeout_t
    (evt_value BLE_GATTS_EVT_SC_CONFIRM) timestamp conn_handle evt.

Definition new_GattsTimeoutEvent (timestamp : string) (conn_handle : Z)
    (evt : option loc) : BleDriverEvent ble_gatts_evt_timeout_t :=
  BleDriverGattsEvent ble_gatts_evt_timeout_t
    (evt_value BLE_GATTS_EVT_TIMEOUT) timestamp conn_handle evt.

(** Construction of an event of class [c]. *)
Definition construct (c : gatts_event_class)
  : string → Z → option loc → BleDriverEvent (EventType c) :=
  match c with
  | GattsWriteEvent => new_GattsWriteEvent
  | GattsRWAuthorizeRequestEvent => new_GattsRWAuthorizeRequestEvent
  | GattsSystemAttributeMissingEvent => new_GattsSystemAttributeMissingEvent
  | GattsHVCEvent => new_GattsHVCEvent
  | GattsSCConfirmEvent => new_GattsSCConfirmEvent
  | GattsTimeoutEvent => new_GattsTimeoutEvent
  end.

(** ** Converter bodies

    The header declares [ToJs()] and [ToNative()] of the converter classes;
    their bodies are in the implementation file, and the layouts they fill are
    in [ble_gatts.h].  Both are taken from the data model and the converter
    contract of the specification.  The specification does not name the
    fields of the managed records; they are named after what it says each
    entity holds. *)

(** Modelled from the spec: the layout of [ble_gatts_enable_params_t] is
    declared in [ble_gatts.h].  EnableParameters is the
    service-changed-characteristic enable flag. *)
Record EnableParameters : Set := {
  service_changed : bool
}.

(** Modelled from the spec: the layout of [ble_gatts_value_t] is declared in
    [ble_gatts.h].  Value is an offset and a variable-length byte buffer; in
    the native layout the buffer is a pointer and a length. *)
Record Value : Set := {
  value_offset : Z;
  value_len : Z;
  p_value : option (list byte)
}.

(** Modelled from the spec: the layout of [ble_gatts_authorize_params_t] is
    declared in [ble_gatts.h].  AuthorizeParameters is an update flag, a gatt
    status code, flags, and an embedded Value. *)
Record AuthorizeParameters : Set := {
  update : bool;
  gatt_status : Z;
  authorize_flags : Z;
  authorize_value : Value
}.

(** Modelled from the spec: the layout of
    [ble_gatts_rw_authorize_reply_params_t] is declared in [ble_gatts.h].
    ReplyReadWriteAuthorizeParams is a discriminated union keyed by the
    request kind, read or write, each carrying its own
    AuthorizeParameters. *)
Inductive ReplyReadWriteAuthorizeParams : Set :=
| ReplyRead (read : AuthorizeParameters)
| ReplyWrite (write : AuthorizeParameters).

(** Modelled from the spec: body of [GattsEnableParameters::ToNative].  The
    flag is a required field. *)
Definition GattsEnableParameters_ToNative (jsobj : managed)
  : result EnableParameters :=
  flag ← getBool jsobj "service_changed";
  Ok {| service_changed := flag |}.

(** Modelled from the spec: body of [GattsEnableParameters::ToJs]: a record
    whose fields are a fixed projection of the native layout. *)
Definition GattsEnableParameters_ToJs (native : EnableParameters)
  : result managed :=
  Ok (MObject {[ "service_changed" := MBool (service_changed native) ]}).

(** Modelled from the spec: body of [GattsValue::ToNative].  The buffer is
    newly allocated and owned by the returned structure; its length is the
    length of the byte sequence. *)
Definition GattsValue_ToNative (jsobj : managed) : result Value :=
  offset ← getNumber jsobj "offset";
  bytes ← getBytes jsobj "value";
  Ok {| value_offset := offset;
        value_len := Z.of_nat (length bytes);
        p_value := Some bytes |}.

(** The deep copy of [len] bytes out of a native buffer.  It fails when the
    pointer is [NULL] while the declared length is not zero. *)
Definition copy_buffer (name : string) (p : option (list byte)) (len : Z)
  : result (list byte) :=
  match p with
  | Some buffer => Ok (take (Z.to_nat len) buffer)
  | None =>
      if decide (len = 0) then Ok []
      else Fail {| field := name; why := NullBuffer |}
  end.

(** Modelled from the spec: body of [GattsValue::ToJs]. *)
Definition GattsValue_ToJs (native : Value) : result managed :=
  bytes ← copy_buffer "value" (p_value native) (value_len native);
  Ok (MObject {[ "offset" := MNumber (value_offset native);
                 "value" := MBytes bytes ]}).

(** Modelled from the spec: body of [GattsAuthorizeParameters::ToNative].
    The embedded Value is converted by its own converter. *)
Definition GattsAuthorizeParameters_ToNative (jsobj : managed)
  : result AuthorizeParameters :=
  upd ← getBool jsobj "update";
  status ← getNumber jsobj "gatt_status";
  flags ← getNumber jsobj "flags";
  value_js ← getObject jsobj "value";
  value ← GattsValue_ToNative value_js;
  Ok {| update := upd;
        gatt_status := status;
        authorize_flags := flags;
        authorize_value := value |}.

(** Modelled from the spec: body of [GattsAuthorizeParameters::ToJs]. *)
Definition GattsAuthorizeParameters_ToJs (native : AuthorizeParameters)
  : result managed :=
  value_js ← GattsValue_ToJs (authorize_value native);
  Ok (MObject {[ "update" := MBool (update native);
                 "gatt_status" := MNumber (gatt_status native);
                 "flags" := MNumber (authorize_flags native);
                 "value" := value_js ]}).

(** Modelled from the spec: body of
    [GattGattsReplyReadWriteAuthorizeParams::ToNative].  Exactly one of the
    two branches has to be supplied; it decides the kind of the reply. *)
Definition GattGattsReplyReadWriteAuthorizeParams_ToNative (jsobj : managed)
  : result ReplyReadWriteAuthorizeParams :=
  match get jsobj "read", get jsobj "write" with
  | MAbsent, MAbsent => Fail {| field := "read"; why := NoBranch |}
  | read_js, MAbsent => ReplyRead <$> GattsAuthorizeParameters_ToNative read_js
  | MAbsent, write_js =>
      ReplyWrite <$> GattsAuthorizeParameters_ToNative write_js
  | _, _ => Fail {| field := "write"; why := BothBranches |}
  end.

(** The managed shapes of the entities that convert in both directions. *)
Definition EnableParameters_shape (flag : bool) : managed :=
  MObject {[ "service_changed" := MBool flag ]}.

Definition Value_shape (offset : Z) (bytes : list byte) : managed :=
  MObject {[ "offset" := MNumber offset; "value" := MBytes bytes ]}.

Definition AuthorizeParameters_shape (upd : bool) (status flags : Z)
    (offset : Z) (bytes : list byte) : managed :=
  MObject {[ "update" := MBool upd;
             "gatt_status" := MNumber status;
             "flags" := MNumber flags;
             "value" := Value_shape offset bytes ]}.

(** ** Sample inputs *)

(** Replies: with the read branch only, with both branches, with none. *)
Definition read_reply : managed :=
  MObject {[ "read" := AuthorizeParameters_shape true 0 0 0 [xff] ]}.

Definition reply_with_both_branches : managed :=
  MObject {[ "read" := AuthorizeParameters_shape true 0 0 0 [xff];
             "write" := AuthorizeParameters_shape false 0 0 0 [] ]}.

Definition reply_with_no_branch : managed := MObject ∅.

(** ** Batons *)

(** The types of the members of the batons.  [ble_uuid_t] belongs to the
    common conversion code; the other structures are those of the converter
    classes. *)
Inductive member_type : Set :=
| uint8_t
| uint16_t
| uint32_t
| uint8_ptr
| ble_uuid_ptr
| struct_ptr (T : native_type).

#[global] Instance member_type_eq_dec : EqDecision member_type.
Proof. solve_decision. Defined.

(** The batons of the asynchronous calls, in the order of the header. *)
Inductive baton : Set :=
| GattsAddServiceBaton
| GattsAddCharacteristicBaton
| GattsAddDescriptorBaton
| GattsHVXBaton
| GattsSystemAttributeSetBaton
| GattsSetValueBaton
| GattsGetValueBaton
| GattsReplyReadWriteAuthorizeBaton.

#[global] Instance baton_eq_dec : EqDecision baton.
Proof. solve_decision. Defined.

(** The members each baton declares, with their types. *)
Definition baton_members (b : baton) : list (string * member_type) :=
  match b with
  | GattsAddServiceBaton =>
      [ ("type", uint8_t); ("p_uuid", ble_uuid_ptr); ("p_handle", uint16_t) ]
  | GattsAddCharacteristicBaton =>
      [ ("service_handle", uint16_t);
        ("p_char_md", struct_ptr ble_gatts_char_md_t);
        ("p_attr_char_value", struct_ptr ble_gatts_attr_t);
        ("p_handles", struct_ptr ble_gatts_char_handles_t) ]
  | GattsAddDescriptorBaton =>
      [ ("char_handle", uint16_t);
        ("p_attr", struct_ptr ble_gatts_attr_t);
        ("p_handle", uint16_t) ]
  | GattsHVXBaton =>
      [ ("conn_handle", uint16_t);
        ("p_hvx_params", struct_ptr ble_gatts_hvx_params_t) ]
  | GattsSystemAttributeSetBaton =>
      [ ("conn_handle", uint16_t);
        ("p_sys_attr_data", uint8_ptr);
        ("len", uint16_t);
        ("flags", uint32_t) ]
  | GattsSetValueBaton =>
      [ ("conn_handle", uint16_t);
        ("handle", uint16_t);
        ("p_value", struct_ptr ble_gatts_value_t) ]
  | GattsGetValueBaton =>
      [ ("conn_handle", uint16_t);
        ("handle", uint16_t);
        ("p_value", struct_ptr ble_gatts_value_t) ]
  | GattsReplyReadWriteAuthorizeBaton =>
      [ ("conn_handle", uint16_t);
        ("p_rw_authorize_reply_params",
         struct_ptr ble_gatts_rw_authorize_reply_params_t) ]
  end.

(** The structure a class converts: the template argument of its base. *)
Definition wrapped (d : class_decl) : native_type :=
  match base d with
  | BleToJs T => T
  | BleDriverGattsEvent_of T => T
  end.

(** ** Enumerator values that collide *)

(** The position of an enumerator in the initializer of the table. *)
Definition rank (e : BLE_GATTS_EVTS) : nat :=
  match e with
  | BLE_GATTS_EVT_WRITE => 0
  | BLE_GATTS_EVT_RW_AUTHORIZE_REQUEST => 1
  | BLE_GATTS_EVT_SYS_ATTR_MISSING => 2
  | BLE_GATTS_EVT_HVC => 3
  | BLE_GATTS_EVT_SC_CONFIRM => 4
  | BLE_GATTS_EVT_TIMEOUT => 5
  end.

(** Values under which Timeout has the value of SC-Confirm. *)
Definition colliding_evt_value (e : BLE_GATTS_EVTS) : Z :=
  match e with
  | BLE_GATTS_EVT_TIMEOUT => 0x54
  | _ => softdevice_evt_value e
  end.

(** * Properties *)

(** ** The name table *)

Lemma foldl_name_map_insert_lookup (entries : list (Z * string))
    (m : gmap Z string) (k : Z) :
  foldl name_map_insert m entries !! k =
  match m !! k with
  | Some name => Some name
  | None => first_entry k entries
  end.
Proof.
  revert m. induction entries as [|[k' v] rest IH]; intros m; simpl.
  - by destruct (m !! k).
  - rewrite IH. unfold name_map_insert. simpl.
    destruct (m !! k') as [w|] eqn:Hk'.
    + destruct (m !! k) eqn:Hk; [done|].
      case_decide; [congruence|done].
    + destruct (decide (k' = k)) as [->|Hne].
      * by rewrite lookup_insert_eq, Hk'.
      * by rewrite lookup_insert_ne.
Qed.

Lemma name_map_init_lookup (entries : list (Z * string)) (k : Z) :
  name_map_init entries !! k = first_entry k entries.
Proof.
  unfold name_map_init. by rewrite foldl_name_map_insert_lookup, lookup_empty.
Qed.

Lemma first_entry_is_Some (entries : list (Z * string)) (k : Z) :
  is_Some (first_entry k entries) ↔ k ∈ entries.*1.
Proof.
  induction entries as [|[k' v] rest IH]; simpl.
  - split; [by intros [? ?]|by intros ?%elem_of_nil].
  - rewrite elem_of_cons. case_decide as Hk; simpl in Hk.
    + split; [by left|eauto].
    + rewrite IH. split; [by right|]. intros [?|?]; [congruence|done].
Qed.

Lemma first_entry_elem_of (entries : list (Z * string)) (k : Z) (v : string) :
  first_entry k entries = Some v → (k, v) ∈ entries.
Proof.
  induction entries as [|[k' v'] rest IH]; simpl; [done|].
  case_decide as Hk; simpl in Hk.
  - intros [= <-]. subst k'. by left.
  - intros ?. right. by apply IH.
Qed.

Lemma first_entry_NoDup (entries : list (Z * string)) (k : Z) (v : string) :
  NoDup entries.*1 → (k, v) ∈ entries → first_entry k entries = Some v.
Proof.
  induction entries as [|[k' v'] rest IH]; simpl.
  - by intros _ ?%elem_of_nil.
  - intros [Hnotin Hrest]%NoDup_cons [Heq|Hin]%elem_of_cons.
    + injection Heq as -> ->. by rewrite decide_True.
    + case_decide as Hk; simpl in Hk.
      * subst k'. destruct Hnotin.
        apply list_elem_of_fmap. by exists (k, v).
      * by apply IH.
Qed.

Lemma gatts_event_name_map_unfold :
  gatts_event_name_map = name_map_init (NAME_MAP_ENTRY <$> all_gatts_evts).
Proof. reflexivity. Qed.

Lemma NAME_MAP_ENTRY_keys :
  (NAME_MAP_ENTRY <$> all_gatts_evts).*1 = evt_key <$> all_gatts_evts.
Proof. reflexivity. Qed.

Lemma all_gatts_evts_complete (e : BLE_GATTS_EVTS) : e ∈ all_gatts_evts.
Proof. unfold all_gatts_evts. destruct e; set_solver. Qed.

(** The keys of the table are the six discriminants, whatever their values. *)
Lemma gatts_event_name_map_dom :
  dom gatts_event_name_map = list_to_set (evt_key <$> all_gatts_evts).
Proof.
  apply set_eq. intros k.
  rewrite elem_of_dom, gatts_event_name_map_unfold, name_map_init_lookup.
  by rewrite first_entry_is_Some, NAME_MAP_ENTRY_keys, elem_of_list_to_set.
Qed.

(** Every entry of the table pairs a discriminant with its name. *)
Lemma gatts_event_name_map_entry (k : Z) (name : string) :
  gatts_event_name_map !! k = Some name →
  ∃ e, k = evt_key e ∧ name = evt_name e.
Proof.
  rewrite gatts_event_name_map_unfold, name_map_init_lookup.
  intros Hin%first_entry_elem_of.
  apply list_elem_of_fmap in Hin as (e & Heq & _).
  exists e. by injection Heq.
Qed.


(** With pairwise different values, every discriminant finds its own name. *)
Lemma gatts_event_name_map_lookup (e : BLE_GATTS_EVTS) :
  NoDup (evt_key <$> all_gatts_evts) →
  gatts_event_name_map !! evt_key e = Some (evt_name e).
Proof.
  intros Hnodup. rewrite gatts_event_name_map_unfold, name_map_init_lookup.
  apply first_entry_NoDup; [by rewrite NAME_MAP_ENTRY_keys|].
  apply list_elem_of_fmap. exists e. split; [done|].
  apply all_gatts_evts_complete.
Qed.

(** C8.  When the six enumerators have pairwise different 16-bit values, the
    table [gatts_event_name_map] holds exactly six entries: each of Write,
    RW-Authorize-Request, System-Attribute-Missing, HVC, SC-Confirm and
    Timeout is mapped to its own name, and a key that is none of the six
    discriminants has no entry. *)
Theorem gatts_event_name_map_exactly_six :
  NoDup (evt_key <$> all_gatts_evts) →
  (∀ e, gatts_event_name_map !! evt_key e = Some (evt_name e)) ∧
  (∀ k, (∀ e, k ≠ evt_key e) → gatts_event_name_map !! k = None) ∧
  dom gatts_event_name_map = list_to_set (evt_key <$> all_gatts_evts) ∧
  size gatts_event_name_map = 6%nat.
Proof.
  intros Hnodup. split_and!.
  - intros e. by apply gatts_event_name_map_lookup.
  - intros k Hk. apply eq_None_not_Some. intros [name Hname].
    apply gatts_event_name_map_entry in Hname as (e & -> & _).
    by apply (Hk e).
  - apply gatts_event_name_map_dom.
  - rewrite <- size_dom, gatts_event_name_map_dom.
    by rewrite size_list_to_set.
Qed.

(** C4.  For an event whose discriminant is none of the six known ones,
    [getEventName] returns the text "Unknown Gatts Event"; the function is
    total, so there is no error to raise. *)
Theorem getEventName_unknown (T : native_type) (e : BleDriverEvent T) :
  (∀ k, evt_id e ≠ evt_key k) →
  getEventName e = "Unknown Gatts Event".
Proof.
  intros Hunknown. unfold getEventName, valueToString.
  destruct (gatts_event_name_map !! evt_id e) as [name|] eqn:Hname; [|done].
  apply gatts_event_name_map_entry in Hname as (k & Hk & _).
  by destruct (Hunknown k).
Qed.

(** ** Event wrappers *)

Lemma construct_kind (c : gatts_event_class) ts ch p :
  evt_id (construct c ts ch p) = evt_key (class_evt_id c).
Proof. by destruct c. Qed.

(** The name of a constructed event is the name of its class's constant. *)
Lemma construct_getEventName (c : gatts_event_class) ts ch p :
  NoDup (evt_key <$> all_gatts_evts) →
  getEventName (construct c ts ch p) = evt_name (class_evt_id c).
Proof.
  intros Hnodup. unfold getEventName, valueToString.
  by rewrite construct_kind, gatts_event_name_map_lookup.
Qed.

(** C9.  Whatever timestamp, connection handle and payload pointer an event
    wrapper is constructed with, the kind of the event is the constant of its
    class; hence the kind and the name of two events of one class agree. *)
Theorem construct_evt_id (c : gatts_event_class) :
  (∀ ts ch p, evt_id (construct c ts ch p) = evt_key (class_evt_id c)) ∧
  (∀ ts ch p ts' ch' p',
     evt_id (construct c ts ch p) = evt_id (construct c ts' ch' p') ∧
     getEventName (construct c ts ch p) =
     getEventName (construct c ts' ch' p')).
Proof.
  split; [apply construct_kind|]. intros ts ch p ts' ch' p'.
  unfold getEventName. by rewrite !construct_kind.
Qed.

(** C7.  SC-Confirm and Timeout are two wrapper classes with two different
    constants, both instantiated at the payload structure
    [ble_gatts_evt_timeout_t]; when the two constants have different 16-bit
    values, an SC-Confirm event and a Timeout event never have the same
    kind, and the table has an entry of its own for each. *)
Theorem SCConfirm_Timeout_distinct :
  evt_key BLE_GATTS_EVT_SC_CONFIRM ≠ evt_key BLE_GATTS_EVT_TIMEOUT →
  GattsSCConfirmEvent ≠ GattsTimeoutEvent ∧
  class_evt_id GattsSCConfirmEvent = BLE_GATTS_EVT_SC_CONFIRM ∧
  class_evt_id GattsTimeoutEvent = BLE_GATTS_EVT_TIMEOUT ∧
  class_evt_id GattsSCConfirmEvent ≠ class_evt_id GattsTimeoutEvent ∧
  EventType GattsSCConfirmEvent = ble_gatts_evt_timeout_t ∧
  EventType GattsTimeoutEvent = ble_gatts_evt_timeout_t ∧
  (∀ ts ch p ts' ch' p',
     evt_id (new_GattsSCConfirmEvent ts ch p) ≠
     evt_id (new_GattsTimeoutEvent ts' ch' p') ∧
     new_GattsSCConfirmEvent ts ch p ≠ new_GattsTimeoutEvent ts' ch' p') ∧
  is_Some (gatts_event_name_map !! evt_key BLE_GATTS_EVT_SC_CONFIRM) ∧
  is_Some (gatts_event_name_map !! evt_key BLE_GATTS_EVT_TIMEOUT).
Proof.
  intros Hvalues. split_and!; try done.
  - intros ts ch p ts' ch' p'.
    assert (evt_id (new_GattsSCConfirmEvent ts ch p) ≠
            evt_id (new_GattsTimeoutEvent ts' ch' p')) as Hkind by done.
    split; [done|]. intros Heq. apply Hkind. by rewrite Heq.
  - apply elem_of_dom. rewrite gatts_event_name_map_dom.
    apply elem_of_list_to_set, list_elem_of_fmap.
    eexists. split; [done|]. apply all_gatts_evts_complete.
  - apply elem_of_dom. rewrite gatts_event_name_map_dom.
    apply elem_of_list_to_set, list_elem_of_fmap.
    eexists. split; [done|]. apply all_gatts_evts_complete.
Qed.

(** ** Native memory *)

Lemma new_fresh {A : Type} (v : A) (h : gmap loc A) :
  h !! (new v h).1 = None ∧
  (new v h).2 !! (new v h).1 = Some v ∧
  (∀ q, q ≠ (new v h).1 → (new v h).2 !! q = h !! q).
Proof.
  unfold new. simpl. split_and!.
  - apply not_elem_of_dom, is_fresh.
  - apply lookup_insert_eq.
  - intros q Hq. by apply lookup_insert_ne.
Qed.

(** C2.  No event wrapper can be built from a managed object, and none
    declares a conversion to the native side; the [ToNative()] every
    wrapper inherits does not read the event: it returns a newly allocated,
    value-initialised payload structure, the same for every event, and
    leaves every other native object as it is. *)
Theorem event_never_ToNative (c : gatts_event_class) :
  (FromJsObject ∉ ctors (event_decl c)) ∧
  declares (event_decl c) ToNative = false ∧
  declares (event_decl c) ToJs = true ∧
  (∀ (e e' : BleDriverEvent (EventType c)) (h : gmap loc (layout (EventType c))),
     BleDriverGattsEvent_ToNative e h = BleDriverGattsEvent_ToNative e' h) ∧
  (∀ (e : BleDriverEvent (EventType c)) (h : gmap loc (layout (EventType c))),
     let r := BleDriverGattsEvent_ToNative e h in
     h !! r.1 = None ∧
     r.2 !! r.1 = Some (value_init (EventType c)) ∧
     (∀ q, q ≠ r.1 → r.2 !! q = h !! q)).
Proof.
  split_and!.
  - destruct c; simpl; by intros [=]%list_elem_of_singleton.
  - by destruct c.
  - by destruct c.
  - done.
  - intros e h. apply new_fresh.
Qed.

(** ** Conversion directions *)

(** C1, as amended.  GattsEnableParameters, GattsValue and
    GattsAuthorizeParameters declare both [ToJs()] and [ToNative()]; every
    other converter class declares exactly one of the two. *)
Theorem bidirectional_converters (c : converter_class) :
  if bool_decide
       (c ∈ [GattsEnableParameters; GattsValue; GattsAuthorizeParameters])
  then provides_both c = true
  else xorb (provides_ToJs c) (provides_ToNative c) = true.
Proof. by destruct c. Qed.

(** C1 fails as stated: GattsValue is not GattsEnableParameters, and it
    declares both directions, so not every other entity has one direction
    only. *)
Lemma EnableParameters_not_only_bidirectional :
  (GattsValue ≠ GattsEnableParameters ∧
   provides_ToJs GattsValue = true ∧
   provides_ToNative GattsValue = true) ∧
  ¬ (∀ c, c ≠ GattsEnableParameters →
          xorb (provides_ToJs c) (provides_ToNative c) = true).
Proof.
  split; [done|].
  intros Hothers. by specialize (Hothers GattsValue ltac:(done)).
Qed.

(** The read event is a converter, not an envelope: it derives from
    [BleToJs], its constructors take the native structure or a managed
    object, it declares [ToJs()] only, and no event wrapper and no entry of
    the table belongs to it. *)
Lemma GattsReadEvent_not_an_envelope :
  base (converter_decl GattsReadEvent) = BleToJs ble_gatts_evt_read_t ∧
  (∀ k, FromEnvelope k ∉ ctors (converter_decl GattsReadEvent)) ∧
  provides_ToJs GattsReadEvent = true ∧
  provides_ToNative GattsReadEvent = false ∧
  (∀ c, EventType c ≠ ble_gatts_evt_read_t).
Proof.
  split_and!; try done.
  - intros k. simpl. rewrite !not_elem_of_cons.
    split_and!; [done|done|apply not_elem_of_nil].
  - by intros [].
Qed.

(** ** Converters *)

Lemma copy_buffer_owned (name : string) (bytes : list byte) :
  copy_buffer name (Some bytes) (Z.of_nat (length bytes)) = Ok bytes.
Proof. unfold copy_buffer. by rewrite Nat2Z.id, firstn_all. Qed.

Lemma GattsValue_ToNative_shape (offset : Z) (bytes : list byte) :
  GattsValue_ToNative (Value_shape offset bytes) =
  Ok {| value_offset := offset;
        value_len := Z.of_nat (length bytes);
        p_value := Some bytes |}.
Proof. reflexivity. Qed.

Lemma GattsValue_roundtrip (offset : Z) (bytes : list byte) :
  GattsValue_ToNative (Value_shape offset bytes) ≫= GattsValue_ToJs =
  Ok (Value_shape offset bytes).
Proof.
  rewrite GattsValue_ToNative_shape.
  change (GattsValue_ToJs
            {| value_offset := offset;
               value_len := Z.of_nat (length bytes);
               p_value := Some bytes |} = Ok (Value_shape offset bytes)).
  unfold GattsValue_ToJs. cbn [p_value value_len value_offset].
  by rewrite copy_buffer_owned.
Qed.

Lemma GattsEnableParameters_roundtrip (flag : bool) :
  GattsEnableParameters_ToNative (EnableParameters_shape flag) ≫=
    GattsEnableParameters_ToJs = Ok (EnableParameters_shape flag).
Proof. reflexivity. Qed.

Lemma GattsAuthorizeParameters_ToNative_shape (upd : bool) (status flags : Z)
    (offset : Z) (bytes : list byte) :
  GattsAuthorizeParameters_ToNative
    (AuthorizeParameters_shape upd status flags offset bytes) =
  Ok {| update := upd;
        gatt_status := status;
        authorize_flags := flags;
        authorize_value :=
          {| value_offset := offset;
             value_len := Z.of_nat (length bytes);
             p_value := Some bytes |} |}.
Proof. reflexivity. Qed.

Lemma GattsAuthorizeParameters_roundtrip (upd : bool) (status flags : Z)
    (offset : Z) (bytes : list byte) :
  GattsAuthorizeParameters_ToNative
    (AuthorizeParameters_shape upd status flags offset bytes) ≫=
    GattsAuthorizeParameters_ToJs =
  Ok (AuthorizeParameters_shape upd status flags offset bytes).
Proof.
  rewrite GattsAuthorizeParameters_ToNative_shape.
  pose proof (GattsValue_roundtrip offset bytes) as Hvalue.
  rewrite GattsValue_ToNative_shape in Hvalue.
  change (GattsValue_ToJs
            {| value_offset := offset;
               value_len := Z.of_nat (length bytes);
               p_value := Some bytes |} = Ok (Value_shape offset bytes))
    in Hvalue.
  cbn [mbind result_bind]. unfold GattsAuthorizeParameters_ToJs.
  cbn [authorize_value update gatt_status authorize_flags].
  by rewrite Hvalue.
Qed.

(** Inversion of the field readers. *)
Lemma getNumber_Ok (o : managed) (name : string) (n : Z) :
  getNumber o name = Ok n → get o name = MNumber n.
Proof. unfold getNumber. destruct (get o name); naive_solver. Qed.

Lemma getBool_Ok (o : managed) (name : string) (b : bool) :
  getBool o name = Ok b → get o name = MBool b.
Proof. unfold getBool. destruct (get o name); naive_solver. Qed.

Lemma getBytes_Ok (o : managed) (name : string) (bs : list byte) :
  getBytes o name = Ok bs → get o name = MBytes bs.
Proof. unfold getBytes. destruct (get o name); naive_solver. Qed.

Lemma getObject_Ok (o : managed) (name : string) (v : managed) :
  getObject o name = Ok v → get o name = v.
Proof. unfold getObject. destruct (get o name); naive_solver. Qed.

Lemma bind_Ok {A B : Type} (f : A → result B) (r : result A) (b : B) :
  r ≫= f = Ok b → ∃ a, r = Ok a ∧ f a = Ok b.
Proof. destruct r as [a|e]; [eauto|done]. Qed.

(** Any object [GattsValue::ToNative] accepts, whatever else it holds, comes
    back with the same offset and the same bytes. *)
Lemma GattsValue_roundtrip_fields (jsobj : managed) (native : Value) :
  GattsValue_ToNative jsobj = Ok native →
  ∃ back, GattsValue_ToJs native = Ok back ∧
          get back "offset" = get jsobj "offset" ∧
          get back "value" = get jsobj "value".
Proof.
  unfold GattsValue_ToNative.
  intros (offset & Hoffset%getNumber_Ok & Hrest)%bind_Ok.
  apply bind_Ok in Hrest as (bytes & Hbytes%getBytes_Ok & [= <-]).
  unfold GattsValue_ToJs. cbn [p_value value_len value_offset].
  rewrite copy_buffer_owned. eexists. split; [done|].
  by rewrite Hoffset, Hbytes.
Qed.

(** Any object [GattsEnableParameters::ToNative] accepts comes back with the
    same flag. *)
Lemma GattsEnableParameters_roundtrip_fields (jsobj : managed)
    (native : EnableParameters) :
  GattsEnableParameters_ToNative jsobj = Ok native →
  ∃ back, GattsEnableParameters_ToJs native = Ok back ∧
          get back "service_changed" = get jsobj "service_changed".
Proof.
  unfold GattsEnableParameters_ToNative.
  intros (flag & Hflag%getBool_Ok & [= <-])%bind_Ok.
  eexists. split; [done|]. by rewrite Hflag.
Qed.

(** Any object [GattsAuthorizeParameters::ToNative] accepts comes back with
    the same flag, status and flags, and with an embedded Value of the same
    offset and bytes. *)
Lemma GattsAuthorizeParameters_roundtrip_fields (jsobj : managed)
    (native : AuthorizeParameters) :
  GattsAuthorizeParameters_ToNative jsobj = Ok native →
  ∃ back, GattsAuthorizeParameters_ToJs native = Ok back ∧
          get back "update" = get jsobj "update" ∧
          get back "gatt_status" = get jsobj "gatt_status" ∧
          get back "flags" = get jsobj "flags" ∧
          get (get back "value") "offset" = get (get jsobj "value") "offset" ∧
          get (get back "value") "value" = get (get jsobj "value") "value".
Proof.
  unfold GattsAuthorizeParameters_ToNative.
  intros (upd & Hupd%getBool_Ok & H)%bind_Ok.
  apply bind_Ok in H as (status & Hstatus%getNumber_Ok & H).
  apply bind_Ok in H as (flags & Hflags%getNumber_Ok & H).
  apply bind_Ok in H as (value_js & Hvalue_js%getObject_Ok & H).
  apply bind_Ok in H as (value & Hvalue & [= <-]).
  apply GattsValue_roundtrip_fields in Hvalue
    as (value_back & Hback & Hoffset & Hbytes).
  unfold GattsAuthorizeParameters_ToJs.
  cbn [authorize_value update gatt_status authorize_flags].
  rewrite Hback. eexists. split; [done|].
  rewrite Hupd, Hstatus, Hflags, Hvalue_js.
  match goal with
  | |- context [get ?obj "update"] =>
      assert (get obj "value" = value_back) as -> by reflexivity
  end.
  rewrite Hoffset, Hbytes. by split_and!.
Qed.


(** C6.  [ToNative] of a reply produces a structure only from a managed
    object that supplies exactly one of the two branches, and the structure
    carries that branch: with both branches supplied, or with neither, it
    fails with a [ConversionError]. *)
Theorem reply_exactly_one_branch :
  (∀ jsobj native,
     GattGattsReplyReadWriteAuthorizeParams_ToNative jsobj = Ok native →
     (get jsobj "read" ≠ MAbsent ∧ get jsobj "write" = MAbsent ∧
      ∃ params, native = ReplyRead params ∧
        GattsAuthorizeParameters_ToNative (get jsobj "read") = Ok params) ∨
     (get jsobj "read" = MAbsent ∧ get jsobj "write" ≠ MAbsent ∧
      ∃ params, native = ReplyWrite params ∧
        GattsAuthorizeParameters_ToNative (get jsobj "write") = Ok params)) ∧
  (∀ jsobj,
     get jsobj "read" ≠ MAbsent → get jsobj "write" ≠ MAbsent →
     GattGattsReplyReadWriteAuthorizeParams_ToNative jsobj =
     Fail {| field := "write"; why := BothBranches |}) ∧
  (∀ jsobj,
     get jsobj "read" = MAbsent → get jsobj "write" = MAbsent →
     GattGattsReplyReadWriteAuthorizeParams_ToNative jsobj =
     Fail {| field := "read"; why := NoBranch |}) ∧
  (∀ jsobj params,
     get jsobj "write" = MAbsent →
     GattsAuthorizeParameters_ToNative (get jsobj "read") = Ok params →
     GattGattsReplyReadWriteAuthorizeParams_ToNative jsobj =
     Ok (ReplyRead params)) ∧
  (∀ jsobj params,
     get jsobj "read" = MAbsent →
     GattsAuthorizeParameters_ToNative (get jsobj "write") = Ok params →
     GattGattsReplyReadWriteAuthorizeParams_ToNative jsobj =
     Ok (ReplyWrite params)).
Proof.
  unfold GattGattsReplyReadWriteAuthorizeParams_ToNative. split_and!.
  - intros jsobj native.
    destruct (get jsobj "read") as [| | | |rd] eqn:Hread,
             (get jsobj "write") as [| | | |wr] eqn:Hwrite;
      try done;
      intros Hok;
      match type of Hok with
      | ReplyRead <$> ?r = _ =>
          left; destruct r as [params|] eqn:Hparams; [|done];
          injection Hok as <-; split_and!; [done|done|by exists params]
      | ReplyWrite <$> ?r = _ =>
          right; destruct r as [params|] eqn:Hparams; [|done];
          injection Hok as <-; split_and!; [done|done|by exists params]
      end.
  - intros jsobj Hread Hwrite.
    by destruct (get jsobj "read"), (get jsobj "write").
  - by intros jsobj -> ->.
  - intros jsobj params -> Hparams.
    destruct (get jsobj "read"); by rewrite ?Hparams in *.
  - intros jsobj params -> Hparams.
    destruct (get jsobj "write"); by rewrite ?Hparams in *.
Qed.

(** Every converter class has the two constructors of its base class, from
    the native structure and from a managed object, whichever directions it
    declares. *)
Theorem converter_constructors (c : converter_class) :
  ctors (converter_decl c) = [FromNative; FromJsObject] ∧
  (provides_ToJs c || provides_ToNative c = true).
Proof. by destruct c. Qed.

(** Whatever values the enumerators have, the keys of the table are the six
    discriminants, every discriminant has an entry, and the name of every
    entry is the name of an enumerator with that key. *)
Theorem gatts_event_name_map_keys :
  dom gatts_event_name_map = list_to_set (evt_key <$> all_gatts_evts) ∧
  (∀ e, is_Some (gatts_event_name_map !! evt_key e)) ∧
  (∀ k name,
     gatts_event_name_map !! k = Some name →
     ∃ e, k = evt_key e ∧ name = evt_name e).
Proof.
  split_and!.
  - apply gatts_event_name_map_dom.
  - intros e. apply elem_of_dom. rewrite gatts_event_name_map_dom.
    apply elem_of_list_to_set, list_elem_of_fmap.
    exists e. split; [done|]. apply all_gatts_evts_complete.
  - apply gatts_event_name_map_entry.
Qed.

(** ** The table and the wrappers together *)

Lemma class_evt_id_surj (e : BLE_GATTS_EVTS) : ∃ c, class_evt_id c = e.
Proof.
  destruct e;
    [ by exists GattsWriteEvent | by exists GattsRWAuthorizeRequestEvent
    | by exists GattsSystemAttributeMissingEvent | by exists GattsHVCEvent
    | by exists GattsSCConfirmEvent | by exists GattsTimeoutEvent ].
Qed.

Lemma class_evt_id_inj (c c' : gatts_event_class) :
  class_evt_id c = class_evt_id c' → c = c'.
Proof. by destruct c, c'. Qed.

Lemma gatts_event_name_map_is_Some (k : Z) :
  is_Some (gatts_event_name_map !! k) ↔ ∃ e, k = evt_key e.
Proof.
  rewrite <- elem_of_dom, gatts_event_name_map_dom, elem_of_list_to_set.
  rewrite list_elem_of_fmap. split.
  - intros (e & -> & _). by exists e.
  - intros (e & ->). exists e. split; [done|apply all_gatts_evts_complete].
Qed.

(** The table and the wrappers know the same kinds: the kind of every event a
    wrapper constructs has an entry in the table, and every key of the table
    is the kind one of the wrappers gives to all its events. *)
Theorem name_table_covers_wrappers :
  (∀ c ts ch p,
     is_Some (gatts_event_name_map !! evt_id (construct c ts ch p))) ∧
  (∀ k, is_Some (gatts_event_name_map !! k) →
        ∃ c, ∀ ts ch p, evt_id (construct c ts ch p) = k).
Proof.
  split.
  - intros c ts ch p. rewrite construct_kind.
    apply gatts_event_name_map_is_Some. by eexists.
  - intros k (e & ->)%gatts_event_name_map_is_Some.
    destruct (class_evt_id_surj e) as [c <-].
    exists c. intros ts ch p. apply construct_kind.
Qed.

(** An event built by the public constructor of [BleDriverGattsEvent] from a
    raw kind holds that kind reduced to 16 bits; it has an entry in the table
    exactly when the raw kind is congruent modulo 2^16 to the value of one
    of the six enumerators. *)
Theorem public_constructor_named (T : native_type) (raw : Z)
    (ts : string) (ch : Z) (p : option loc) :
  0 ≤ evt_id (BleDriverGattsEvent T raw ts ch p) < 65536 ∧
  evt_id (BleDriverGattsEvent T (raw + 65536) ts ch p) =
    evt_id (BleDriverGattsEvent T raw ts ch p) ∧
  (is_Some (gatts_event_name_map !! evt_id (BleDriverGattsEvent T raw ts ch p))
   ↔ ∃ e, raw mod 65536 = evt_value e mod 65536).
Proof.
  unfold BleDriverGattsEvent. cbn [evt_id]. unfold to_uint16.
  split; [|split].
  - apply Z.mod_pos_bound. lia.
  - replace (raw + 65536) with (raw + 1 * 65536) by lia.
    by rewrite Z.mod_add.
  - apply gatts_event_name_map_is_Some.
Qed.

(** ** Colliding enumerator values *)

Lemma all_gatts_evts_rank (e : BLE_GATTS_EVTS) :
  all_gatts_evts !! rank e = Some e.
Proof. by destruct e. Qed.

Lemma all_gatts_evts_lookup (i : nat) (e : BLE_GATTS_EVTS) :
  all_gatts_evts !! i = Some e → i = rank e.
Proof.
  intros Hi. apply lookup_lt_Some in Hi as Hlt. simpl in Hlt.
  do 6 (destruct i as [|i]; [by injection Hi as <-|]). lia.
Qed.

Lemma first_entry_earliest (l : list BLE_GATTS_EVTS) (k : Z) :
  k ∈ evt_key <$> l →
  ∃ i first,
    l !! i = Some first ∧ evt_key first = k ∧
    first_entry k (NAME_MAP_ENTRY <$> l) = Some (evt_name first) ∧
    (∀ j e, l !! j = Some e → evt_key e = k → (i ≤ j)%nat).
Proof.
  induction l as [|e0 l IH]; simpl.
  - by intros ?%elem_of_nil.
  - intros Hin. destruct (decide (evt_key e0 = k)) as [Hk|Hk].
    + exists 0%nat, e0. split_and!; [done|done|done|]. intros; lia.
    + apply elem_of_cons in Hin as [?|Hin]; [congruence|].
      destruct (IH Hin) as (i & first & Hi & Hfirst & Hentry & Hmin).
      exists (S i), first. split_and!; [done|done|done|].
      intros [|j] e Hj He; simpl in Hj; [congruence|].
      specialize (Hmin j e Hj He). lia.
Qed.

Lemma length_remove_dups_le (l : list Z) :
  (length (remove_dups l) ≤ length l)%nat.
Proof.
  induction l as [|k l IH]; simpl; [done|].
  case_decide; simpl; lia.
Qed.

(** Whatever values the enumerators have, the entry found under the key of
    an enumerator is the entry of the earliest enumerator of the initializer
    that has this key: when values collide, the later entries are dropped.
    The table has as many entries as there are different keys, at most
    six. *)
Theorem name_table_first_entry_wins :
  (∀ e, ∃ first,
     gatts_event_name_map !! evt_key e = Some (evt_name first) ∧
     evt_key first = evt_key e ∧
     (∀ e', evt_key e' = evt_key e → (rank first ≤ rank e')%nat)) ∧
  size gatts_event_name_map =
    length (remove_dups (evt_key <$> all_gatts_evts)) ∧
  (size gatts_event_name_map ≤ 6)%nat.
Proof.
  assert (size gatts_event_name_map =
          length (remove_dups (evt_key <$> all_gatts_evts))) as Hsize.
  { rewrite <- size_dom, gatts_event_name_map_dom.
    rewrite <- (size_list_to_set (C:=gset Z) (remove_dups _))
      by apply NoDup_remove_dups.
    f_equal. apply set_eq. intros k.
    by rewrite !elem_of_list_to_set, elem_of_remove_dups. }
  split_and!; [|done|].
  - intros e.
    destruct (first_entry_earliest all_gatts_evts (evt_key e))
      as (i & first & Hi & Hfirst & Hentry & Hmin).
    { apply list_elem_of_fmap. exists e.
      split; [done|apply all_gatts_evts_complete]. }
    exists first. split_and!; [|done|].
    + by rewrite gatts_event_name_map_unfold, name_map_init_lookup.
    + intros e' He'. apply all_gatts_evts_lookup in Hi as ->.
      apply (Hmin (rank e') e'); [apply all_gatts_evts_rank|done].
  - rewrite Hsize. etrans; [apply length_remove_dups_le|]. by simpl.
Qed.

Lemma evt_key_inj (e e' : BLE_GATTS_EVTS) :
  NoDup (evt_key <$> all_gatts_evts) → evt_key e = evt_key e' → e = e'.
Proof.
  intros Hnodup Hkey.
  assert (rank e = rank e') as Hrank.
  { apply (NoDup_lookup _ _ _ (evt_key e) Hnodup).
    - by rewrite list_lookup_fmap, all_gatts_evts_rank.
    - by rewrite list_lookup_fmap, all_gatts_evts_rank, Hkey. }
  by destruct e, e'.
Qed.

(** When the six enumerators have pairwise different 16-bit values, the kind
    of an event tells which wrapper constructed it: two events have the same
    kind exactly when they are of the same class, whatever their timestamps,
    connection handles and payload pointers. *)
Theorem kind_determines_class :
  NoDup (evt_key <$> all_gatts_evts) →
  ∀ c c' ts ch p ts' ch' p',
    evt_id (construct c ts ch p) = evt_id (construct c' ts' ch' p') ↔ c = c'.
Proof.
  intros Hnodup c c' ts ch p ts' ch' p'. rewrite !construct_kind. split.
  - intros Hkey. by apply class_evt_id_inj, evt_key_inj.
  - by intros ->.
Qed.

(** ** Repeated conversion of events *)

(** Two calls of [ToNative()] on events, one after the other, return two
    different objects, both value-initialised after the second call; an
    object that was live before the calls is neither returned nor changed by
    them. *)
Theorem ToNative_twice (T : native_type) (e e' : BleDriverEvent T)
    (h : gmap loc (layout T)) :
  let r1 := BleDriverGattsEvent_ToNative e h in
  let r2 := BleDriverGattsEvent_ToNative e' r1.2 in
  r1.1 ≠ r2.1 ∧
  r2.2 !! r1.1 = Some (value_init T) ∧
  r2.2 !! r2.1 = Some (value_init T) ∧
  (∀ q, is_Some (h !! q) → q ≠ r1.1 ∧ q ≠ r2.1 ∧ r2.2 !! q = h !! q) ∧
  dom r2.2 = {[ r1.1; r2.1 ]} ∪ dom h.
Proof.
  intros r1 r2. unfold BleDriverGattsEvent_ToNative in r1, r2.
  destruct (new_fresh (value_init T) h) as (Hfresh1 & Hinit1 & Hframe1).
  destruct (new_fresh (value_init T) r1.2) as (Hfresh2 & Hinit2 & Hframe2).
  fold r1 in Hfresh1, Hinit1, Hframe1, Hfresh2, Hinit2, Hframe2.
  fold r2 in Hfresh2, Hinit2, Hframe2.
  assert (r1.1 ≠ r2.1) as Hne by congruence.
  split_and!; [done| |done| |].
  - by rewrite Hframe2.
  - intros q [v Hq].
    assert (q ≠ r1.1) by congruence.
    assert (q ≠ r2.1) by (intros ->; rewrite Hframe1 in Hfresh2; congruence).
    split_and!; [done|done|]. by rewrite Hframe2, Hframe1.
  - subst r2 r1. unfold new. simpl. rewrite !dom_insert_L.
    apply set_eq. intros q. rewrite !elem_of_union, !elem_of_singleton.
    tauto.
Qed.

(** ** Classes and the structures they wrap *)

(** No structure is wrapped twice, except the timeout payload: two converter
    classes never wrap the same structure, no converter wraps the payload of
    an event wrapper, and two different event wrappers wrap the same payload
    only when they are SC-Confirm and Timeout.  Every structure the header
    names is wrapped by some class. *)
Theorem one_class_per_structure :
  (∀ c c', wrapped (converter_decl c) = wrapped (converter_decl c') ↔ c = c') ∧
  (∀ c c', wrapped (converter_decl c) ≠ wrapped (event_decl c')) ∧
  (∀ c c',
     wrapped (event_decl c) = wrapped (event_decl c') ↔
     c = c' ∨
     (c = GattsSCConfirmEvent ∧ c' = GattsTimeoutEvent) ∨
     (c = GattsTimeoutEvent ∧ c' = GattsSCConfirmEvent)) ∧
  (∀ T, (∃ c, wrapped (converter_decl c) = T) ∨
        (∃ c, wrapped (event_decl c) = T)).
Proof.
  split_and!.
  - intros c c'. split; [by destruct c, c'|by intros ->].
  - by intros [] [].
  - intros c c'. split.
    + destruct c, c'; try done; eauto.
    + intros [->|[[-> ->]|[-> ->]]]; done.
  - intros [];
      first
        [ left; first
            [ by exists GattsEnableParameters
            | by exists GattsAttributeMetadata
            | by exists GattsCharacteristicPresentationFormat
            | by exists GattsCharacteristicMetadata
            | by exists GattsAttribute
            | by exists GattsCharacteristicDefinitionHandles
            | by exists GattsHVXParams
            | by exists GattsValue
            | by exists GattGattsReplyReadWriteAuthorizeParams
            | by exists GattsAuthorizeParameters
            | by exists GattsReadEvent ]
        | right; first
            [ by exists GattsWriteEvent
            | by exists GattsRWAuthorizeRequestEvent
            | by exists GattsSystemAttributeMissingEvent
            | by exists GattsHVCEvent
            | by exists GattsTimeoutEvent ] ].
Qed.

(** ** Batons *)

(** Every structure a baton points to has exactly one converter class in the
    header; that class can be built from the native structure and from a
    managed object and declares at least one direction, and the structure is
    never the payload of an event. *)
Theorem baton_structures_have_converters (b : baton) (name : string)
    (T : native_type) :
  (name, struct_ptr T) ∈ baton_members b →
  ∃ c, wrapped (converter_decl c) = T ∧
       (∀ c', wrapped (converter_decl c') = T → c' = c) ∧
       ctors (converter_decl c) = [FromNative; FromJsObject] ∧
       (provides_ToJs c || provides_ToNative c = true) ∧
       (∀ w, wrapped (event_decl w) ≠ T).
Proof.
  intros Hin.
  assert (T ∈ [ ble_gatts_char_md_t; ble_gatts_attr_t;
                ble_gatts_char_handles_t; ble_gatts_hvx_params_t;
                ble_gatts_value_t; ble_gatts_rw_authorize_reply_params_t ])
    as HT.
  { destruct b; simpl in Hin;
      repeat (apply elem_of_cons in Hin as [Heq|Hin];
              [ try discriminate Heq; injection Heq as _ <-;
                rewrite !elem_of_cons; tauto |]);
      by apply elem_of_nil in Hin. }
  clear Hin.
  repeat (apply elem_of_cons in HT as [->|HT];
    [ first
        [ exists GattsCharacteristicMetadata; split_and!;
            [done|by intros []|done|done|by intros []]
        | exists GattsAttribute; split_and!;
            [done|by intros []|done|done|by intros []]
        | exists GattsCharacteristicDefinitionHandles; split_and!;
            [done|by intros []|done|done|by intros []]
        | exists GattsHVXParams; split_and!;
            [done|by intros []|done|done|by intros []]
        | exists GattsValue; split_and!;
            [done|by intros []|done|done|by intros []]
        | exists GattGattsReplyReadWriteAuthorizeParams; split_and!;
            [done|by intros []|done|done|by intros []] ] |]).
  by apply elem_of_nil in HT.
Qed.

End Gatts.

(** * The properties at sample inputs *)

Lemma softdevice_keys_NoDup :
  NoDup (evt_key softdevice_evt_value <$> all_gatts_evts).
Proof. apply (bool_decide_unpack _). by vm_compute. Qed.

(** C8 at the values of the SoftDevice headers. *)
Lemma gatts_event_name_map_exactly_six_witness :
  NoDup (evt_key softdevice_evt_value <$> all_gatts_evts) ∧
  gatts_event_name_map softdevice_evt_value softdevice_evt_name !! 0x54 =
    Some "BLE_GATTS_EVT_SC_CONFIRM" ∧
  gatts_event_name_map softdevice_evt_value softdevice_evt_name !! 0x56 = None ∧
  size (gatts_event_name_map softdevice_evt_value softdevice_evt_name) = 6%nat.
Proof.
  assert (NoDup (evt_key softdevice_evt_value <$> all_gatts_evts)) as Hnodup
    by (apply (bool_decide_unpack _); vm_compute; exact I).
  destruct (gatts_event_name_map_exactly_six
              softdevice_evt_value softdevice_evt_name Hnodup)
    as (Hnames & Hother & _ & Hsize).
  split_and!; [exact Hnodup| | |exact Hsize].
  - exact (Hnames BLE_GATTS_EVT_SC_CONFIRM).
  - apply Hother. intros []; vm_compute; discriminate.
Defined.

(** C4 at an event of kind 0x56, one past the last known discriminant. *)
Lemma getEventName_unknown_witness :
  (∀ k, evt_id (BleDriverGattsEvent ble_gatts_evt_write_t 0x56 "12:00:00" 1 None)
        ≠ evt_key softdevice_evt_value k) ∧
  getEventName softdevice_evt_value softdevice_evt_name
    (BleDriverGattsEvent ble_gatts_evt_write_t 0x56 "12:00:00" 1 None) =
  "Unknown Gatts Event".
Proof.
  assert (∀ k, evt_id (BleDriverGattsEvent ble_gatts_evt_write_t
                         0x56 "12:00:00" 1 None)
               ≠ evt_key softdevice_evt_value k) as Hunknown
    by (intros []; vm_compute; discriminate).
  split; [exact Hunknown|].
  exact (getEventName_unknown softdevice_evt_value softdevice_evt_name
           ble_gatts_evt_write_t _ Hunknown).
Defined.

(** C7 at the values of the SoftDevice headers. *)
Lemma SCConfirm_Timeout_distinct_witness :
  evt_key softdevice_evt_value BLE_GATTS_EVT_SC_CONFIRM ≠
  evt_key softdevice_evt_value BLE_GATTS_EVT_TIMEOUT ∧
  evt_id (new_GattsSCConfirmEvent softdevice_evt_value "12:00:00" 1 None) ≠
  evt_id (new_GattsTimeoutEvent softdevice_evt_value "12:00:00" 1 None).
Proof.
  assert (evt_key softdevice_evt_value BLE_GATTS_EVT_SC_CONFIRM ≠
          evt_key softdevice_evt_value BLE_GATTS_EVT_TIMEOUT) as Hvalues
    by (vm_compute; discriminate).
  split; [exact Hvalues|].
  destruct (SCConfirm_Timeout_distinct
              softdevice_evt_value softdevice_evt_name Hvalues)
    as (_ & _ & _ & _ & _ & _ & Hevents & _).
  exact (proj1 (Hevents "12:00:00" 1 None "12:00:00" 1 None)).
Defined.

(** The name of an HVC event at the values of the SoftDevice headers. *)
Lemma construct_getEventName_witness :
  NoDup (evt_key softdevice_evt_value <$> all_gatts_evts) ∧
  getEventName softdevice_evt_value softdevice_evt_name
    (construct softdevice_evt_value GattsHVCEvent "12:00:00" 1 None) =
  "BLE_GATTS_EVT_HVC".
Proof.
  split; [exact softdevice_keys_NoDup|].
  exact (construct_getEventName softdevice_evt_value softdevice_evt_name
           GattsHVCEvent "12:00:00" 1 None softdevice_keys_NoDup).
Defined.

(** C6 at a reply that supplies both branches. *)
Lemma reply_exactly_one_branch_witness :
  get reply_with_both_branches "read" ≠ MAbsent ∧
  get reply_with_both_branches "write" ≠ MAbsent ∧
  GattGattsReplyReadWriteAuthorizeParams_ToNative reply_with_both_branches =
  Fail {| field := "write"; why := BothBranches |}.
Proof.
  assert (get reply_with_both_branches "read" ≠ MAbsent) as Hread
    by (vm_compute; discriminate).
  assert (get reply_with_both_branches "write" ≠ MAbsent) as Hwrite
    by (vm_compute; discriminate).
  split_and!; [exact Hread|exact Hwrite|].
  exact (proj1 (proj2 reply_exactly_one_branch)
           reply_with_both_branches Hread Hwrite).
Defined.

(** ** The converters on the sample inputs *)

Example GattsValue_ToNative_sample :
  GattsValue_ToNative (Value_shape 4 [x01; x02]) =
  Ok {| value_offset := 4; value_len := 2; p_value := Some [x01; x02] |}.
Proof. reflexivity. Qed.

Example GattsValue_ToNative_missing_value :
  GattsValue_ToNative (MObject {[ "offset" := MNumber 4 ]}) =
  Fail {| field := "value"; why := Missing |}.
Proof. reflexivity. Qed.

Example GattsValue_ToNative_wrong_shape :
  GattsValue_ToNative
    (MObject {[ "offset" := MNumber 4; "value" := MNumber 7 ]}) =
  Fail {| field := "value"; why := WrongShape |}.
Proof. reflexivity. Qed.

Example GattsValue_ToJs_null_buffer :
  GattsValue_ToJs {| value_offset := 0; value_len := 2; p_value := None |} =
  Fail {| field := "value"; why := NullBuffer |}.
Proof. reflexivity. Qed.

Example reply_ToNative_read :
  GattGattsReplyReadWriteAuthorizeParams_ToNative read_reply =
  Ok (ReplyRead
        {| update := true;
           gatt_status := 0;
           authorize_flags := 0;
           authorize_value :=
             {| value_offset := 0; value_len := 1; p_value := Some [xff] |} |}).
Proof. reflexivity. Qed.

Example reply_ToNative_none :
  GattGattsReplyReadWriteAuthorizeParams_ToNative reply_with_no_branch =
  Fail {| field := "read"; why := NoBranch |}.
Proof. reflexivity. Qed.

Example getEventName_write :
  getEventName softdevice_evt_value softdevice_evt_name
    (new_GattsWriteEvent softdevice_evt_value "12:00:00" 1 (Some 1%positive)) =
  "BLE_GATTS_EVT_WRITE".
Proof. reflexivity. Qed.

Example getEventName_wraps :
  getEventName softdevice_evt_value softdevice_evt_name
    (BleDriverGattsEvent ble_gatts_evt_hvc_t (0x10050) "12:00:00" 1 None) =
  "BLE_GATTS_EVT_WRITE".
Proof. reflexivity. Qed.

(** ** The added properties at sample inputs *)

(** At the values of the SoftDevice headers a Write event and an HVC event
    differ in kind. *)
Lemma kind_determines_class_witness :
  NoDup (evt_key softdevice_evt_value <$> all_gatts_evts) ∧
  evt_id (construct softdevice_evt_value GattsWriteEvent "12:00:00" 1 None) ≠
  evt_id (construct softdevice_evt_value GattsHVCEvent "12:00:01" 2 None).
Proof.
  split; [exact softdevice_keys_NoDup|].
  intros Hkind.
  pose proof (proj1 (kind_determines_class softdevice_evt_value
                       softdevice_keys_NoDup
                       GattsWriteEvent GattsHVCEvent
                       "12:00:00" 1 None "12:00:01" 2 None) Hkind) as Hclass.
  discriminate Hclass.
Defined.

(** The value of [GattsGetValueBaton] has GattsValue as its converter. *)
Lemma baton_structures_have_converters_witness :
  ("p_value", struct_ptr ble_gatts_value_t) ∈ baton_members GattsGetValueBaton ∧
  ∃ c, wrapped (converter_decl c) = ble_gatts_value_t ∧
       ∀ c', wrapped (converter_decl c') = ble_gatts_value_t → c' = c.
Proof.
  assert (("p_value", struct_ptr ble_gatts_value_t)
            ∈ baton_members GattsGetValueBaton) as Hin
    by (simpl; rewrite !elem_of_cons; tauto).
  split; [exact Hin|].
  destruct (baton_structures_have_converters
              GattsGetValueBaton "p_value" ble_gatts_value_t Hin)
    as (c & Hc & Hunique & _).
  exists c. split; [exact Hc|exact Hunique].
Defined.

(** With the value of SC-Confirm given to Timeout as well, the one entry
    under that value is SC-Confirm's, and the table has five entries. *)
Example colliding_values_first_wins :
  gatts_event_name_map colliding_evt_value softdevice_evt_name !!
    evt_key colliding_evt_value BLE_GATTS_EVT_TIMEOUT =
  Some "BLE_GATTS_EVT_SC_CONFIRM" ∧
  size (gatts_event_name_map colliding_evt_value softdevice_evt_name) = 5%nat.
Proof. split; reflexivity. Qed.
